(** * Leader-side block generator (core/generator/generator.go)

    A shallow embedding of the Go package [generator]: the [Config] and
    [Generator] structs, [New], the startup sequence and tick loop of
    [Generate], and the peer-facing handlers [Submit] and [GetBlocks].

    Conventions.
    - A Go [uint64] is a [Z] in the range [0, 2^64); additions are written
      with their wrap-around ([add64]).
    - A Go pointer that may be nil is an [option]; a nil slice is [None].
    - A Go result pair [(v, err)] is a pair whose second component is an
      [option error]; [None] is the nil error.
    - The ledger engine, the database and the signer live outside this
      package.  Their mutable state is one value of an abstract type [W]
      that is threaded through every call (explicit state passing), and
      the operations this package calls on them are the methods of the
      interface [Externals].
    - [Generate] never returns on its own: it blocks in a [select].  The
      cases the [select] takes, in order, are an input list; when the
      list is used up the run is [Blocked] in the [select]. *)

From Stdlib Require Import ZArith Bool String List Lia Permutation Sorted.
From Stdlib Require Import DecimalString.
Import ListNotations.
Open Scope Z_scope.

(** ** Machine integers *)

Definition uint64_modulus : Z := 2 ^ 64.
Definition max_uint64 : Z := 2 ^ 64 - 1.

Definition is_uint64 (z : Z) : Prop := 0 <= z < uint64_modulus.

(** [a + b] on uint64 operands. *)
Definition add64 (a b : Z) : Z := (a + b) mod uint64_modulus.

(** ** Data model *)

(** A transaction ([bc.Tx]); only passed along by this package. *)
Definition Tx : Type := string.

(** Ledger state after a block and its ancestors ([state.Snapshot]): the
    transactions applied so far, oldest first. *)
Definition Snapshot : Type := list Tx.

(** [bc.Block].  This package reads the [Height] field only. *)
Record Block : Type := mkBlock {
  Height : Z;
  Transactions : list Tx
}.

(** Handles to the objects a [Config] points to. *)
Definition FCref : Type := nat.
Definition SignerRef : Type := nat.

Record RemoteSigner : Type := mkRemoteSigner {
  URL : string;
  Key : list Byte.byte
}.

Record Config : Type := mkConfig {
  RemoteSigners : list RemoteSigner;
  LocalSigner : option SignerRef;
  FC : FCref
}.

(** The struct [Generator] embeds a [Config] and adds the head. *)
Record Generator : Type := mkGenerator {
  Config_ : Config;
  latestBlock : option Block;
  latestSnapshot : option Snapshot
}.

Definition New (block : option Block) (snapshot : option Snapshot)
    (config : Config) : Generator :=
  {| Config_ := config; latestBlock := block; latestSnapshot := snapshot |}.

(** ** Errors (package chain/errors) *)

Inductive error : Type :=
| ErrorString (msg : string)
| Wrapped (msg : string) (cause : error).

(** Modelled from the spec: [errors.Wrap] of chain/errors, which is not
    part of this package.  It adds the name of the failing stage to an
    error and keeps a nil error nil. *)
Definition errors_Wrap (err : option error) (msg : string) : option error :=
  match err with
  | None => None
  | Some e => Some (Wrapped msg e)
  end.

(** The text Go's [%d] prints for a uint64. *)
Definition fmt_d (z : Z) : string := NilZero.string_of_uint (N.to_uint (Z.to_N z)).

(** [errors.Wrapf(err, "waiting for block at height %d", h)]. *)
Definition errors_Wrapf_waiting (err : option error) (h : Z) : option error :=
  errors_Wrap err ("waiting for block at height " ++ fmt_d h)%string.

(** ** Slices of blocks *)

Definition slice : Type := option (list Block).

Definition elems (s : slice) : list Block :=
  match s with
  | None => []
  | Some l => l
  end.

(** [append(s, b)]. *)
Definition append (s : slice) (b : Block) : slice := Some (elems s ++ [b]).

(** ** What the package calls outside itself *)

Class Externals (W : Type) : Type := {
  (** [FC.Recover] of chain/cos *)
  Recover : FCref -> W -> W * (option Block * option Snapshot * option error);
  (** [FC.AddTx] of chain/cos *)
  AddTx : FCref -> Tx -> W -> W * option error;
  (** [FC.WaitForBlock] of chain/cos *)
  WaitForBlock : FCref -> Z -> W -> W * option error;
  (** [pg.ForQueryRows]: the rows handed to the callback, in order, and
      the error that ended the iteration, if any. *)
  ForQueryRows : string -> Z -> W -> list Block * option error;
  (** [Generator.getPendingBlock], defined in another file of the
      package; a query, the head is an input only. *)
  getPendingBlock : Generator -> W -> W * (option Block * option error);
  (** [Generator.commitBlock], defined in another file of the package;
      updates [latestBlock] and [latestSnapshot]. *)
  commitBlock : Generator -> Block -> W ->
                Generator * W * (option Block * option error);
  (** [Generator.MakeBlock], defined in another file of the package. *)
  MakeBlock : Generator -> W -> Generator * W * (option Block * option error);
  (** The rows of the table [blocks] in durable storage. *)
  blocks_table : W -> list Block
}.

(** ** Observable behaviour of [Generate] *)

Inductive action : Type :=
| CallRecover
| CallGetPendingBlock
| CallCommitBlock (b : Block)
| CallMakeBlock
| LogFatal (e : error)
| LogError (e : error)
| LogMessagef (msg : string).

(** The case a [select] of the main loop takes. *)
Inductive selected : Type :=
| CtxDone
| Tick.

Inductive status : Type :=
| Exited      (* log.Fatal ended the process *)
| Returned    (* Generate returned *)
| Blocked.    (* waiting in the select *)

Record run (W : Type) : Type := mkRun {
  head : option Generator;
  world : W;
  trace : list action;
  outcome : status
}.

Arguments mkRun {W}.
Arguments head {W}.
Arguments world {W}.
Arguments trace {W}.
Arguments outcome {W}.

Definition prepend {W : Type} (acts : list action) (r : run W) : run W :=
  mkRun (head r) (world r) (acts ++ trace r) (outcome r).

Definition is_production (a : action) : bool :=
  match a with
  | CallMakeBlock => true
  | _ => false
  end.

Definition is_commit (a : action) : bool :=
  match a with
  | CallCommitBlock _ => true
  | _ => false
  end.

Definition productions (tr : list action) : nat :=
  length (filter is_production tr).

(** [time.Tick(d)]: a nil channel when [d <= 0]. *)
Definition time_Tick (d : Z) : option Z :=
  if d <=? 0 then None else Some d.

Definition deposed : string := "Deposed, Generate exiting".

(** The query text of [GetBlocks]. *)
Definition q : string :=
  "SELECT data FROM blocks WHERE height > $1 ORDER BY height".

Section Package.

Context {W : Type} `{Externals W}.

(** The [for { select { ... } }] of [Generate].  A nil [ticks] channel
    is never ready, so a [Tick] cannot be taken from it. *)
Fixpoint mainLoop (ticks : option Z) (g : Generator) (w : W)
    (evs : list selected) : run W :=
  match evs with
  | [] => mkRun (Some g) w [] Blocked
  | CtxDone :: _ => mkRun (Some g) w [LogMessagef deposed] Returned
  | Tick :: rest =>
      match ticks with
      | None => mainLoop ticks g w rest
      | Some _ =>
          let '(g', w', (_, err)) := MakeBlock g w in
          prepend
            (CallMakeBlock ::
               match err with
               | Some e => [LogError e]
               | None => []
               end)
            (mainLoop ticks g' w' rest)
      end
  end.

(** The test of line 75:
    [b != nil && (g.latestBlock == nil || b.Height == g.latestBlock.Height+1)]
    for a non-nil [b]. *)
Definition follows_head (g : Generator) (b : Block) : bool :=
  match latestBlock g with
  | None => true
  | Some lb => Height b =? add64 (Height lb) 1
  end.

Definition Generate (config : Config) (period : Z) (evs : list selected)
    (w : W) : run W :=
  let '(w1, (recoveredBlock, recoveredSnapshot, err)) :=
    Recover (FC config) w in
  match err with
  | Some e => mkRun None w1 [CallRecover; LogFatal e] Exited
  | None =>
      let g := New recoveredBlock recoveredSnapshot config in
      let '(w2, (b, err)) := getPendingBlock g w1 in
      match err with
      | Some e =>
          mkRun (Some g) w2 [CallRecover; CallGetPendingBlock; LogFatal e]
            Exited
      | None =>
          match b with
          | Some pb =>
              if follows_head g pb then
                let '(g', w3, (_, err)) := commitBlock g pb w2 in
                match err with
                | Some e =>
                    mkRun (Some g') w3
                      [CallRecover; CallGetPendingBlock;
                       CallCommitBlock pb; LogFatal e]
                      Exited
                | None =>
                    prepend
                      [CallRecover; CallGetPendingBlock; CallCommitBlock pb]
                      (mainLoop (time_Tick period) g' w3 evs)
                end
              else
                prepend [CallRecover; CallGetPendingBlock]
                  (mainLoop (time_Tick period) g w2 evs)
          | None =>
              prepend [CallRecover; CallGetPendingBlock]
                (mainLoop (time_Tick period) g w2 evs)
          end
      end
  end.

(** [func (g *Config) Submit(ctx, tx) error] *)
Definition Submit (g : Config) (tx : Tx) (w : W) : W * option error :=
  let '(w1, err) := AddTx (FC g) tx w in
  (w1, err).

(** [func (g *Config) GetBlocks(ctx, afterHeight) ([]*bc.Block, error)] *)
Definition GetBlocks (g : Config) (afterHeight : Z) (w : W)
    : W * (slice * option error) :=
  let '(w1, err) := WaitForBlock (FC g) (add64 afterHeight 1) w in
  match err with
  | Some _ =>
      (w1, (None, errors_Wrapf_waiting err (add64 afterHeight 1)))
  | None =>
      let '(rows, err) := ForQueryRows q afterHeight w1 in
      let blocks := fold_left append rows None in
      match err with
      | Some _ => (w1, (None, errors_Wrap err "querying blocks from the db"))
      | None => (w1, (blocks, None))
      end
  end.

(** Method promotion: [gen.Submit] and [gen.GetBlocks] on a [Generator]
    run the [Config] method on the embedded field.  The process state is
    the generator together with the outside world. *)
Definition Generator_Submit (st : Generator * W) (tx : Tx)
    : (Generator * W) * option error :=
  let '(w1, err) := Submit (Config_ (fst st)) tx (snd st) in
  ((fst st, w1), err).

Definition Generator_GetBlocks (st : Generator * W) (afterHeight : Z)
    : (Generator * W) * (slice * option error) :=
  let '(w1, res) := GetBlocks (Config_ (fst st)) afterHeight (snd st) in
  ((fst st, w1), res).

End Package.

(** ** The contracts of the ledger engine and of the database *)

Definition by_height (x y : Block) : Prop := Height x <= Height y.
Definition ascending (x y : Block) : Prop := Height x < Height y.

Definition higher_than (afterHeight : Z) (b : Block) : bool :=
  afterHeight <? Height b.

(** Modelled from the spec: what section 6 promises of [WaitForBlock]
    (chain/cos) and of the query run by [pg.ForQueryRows]
    (chain/database/pg), neither of them under src.  [WaitForBlock(height)]
    returns without error only when the given height is durably committed;
    the query returns the stored blocks with height greater than a given
    value, ascending. *)
Class ExternalsLaws (W : Type) `{Externals W} : Prop := {
  WaitForBlock_found :
    forall fc h w w',
      WaitForBlock fc h w = (w', None) ->
      exists b, In b (blocks_table w') /\ Height b = h;
  ForQueryRows_rows :
    forall a w rows,
      ForQueryRows q a w = (rows, None) ->
      Permutation rows (filter (higher_than a) (blocks_table w));
  ForQueryRows_order :
    forall a w rows,
      ForQueryRows q a w = (rows, None) ->
      StronglySorted by_height rows
}.

(** Modelled from the spec: two more promises of durable storage.  The
    table [blocks] holds one record per height (section 3: heights are
    unique; section 6: one durable record per committed block, height being
    the key).  And [pg.ForQueryRows] hands its arguments to Go's
    database/sql, which refuses a uint64 argument with the high bit set:
    the query fails for an argument of 2^63 or more. *)
Class StorageLaws (W : Type) `{Externals W} : Prop := {
  blocks_table_keyed :
    forall w, NoDup (map Height (blocks_table w));
  ForQueryRows_high_bit :
    forall query a w,
      2 ^ 63 <= a -> snd (ForQueryRows query a w) <> None
}.

(** ** A ledger engine

    The collaborators of the package as the specification describes them,
    over a concrete state, so that runs of [Generate], [Submit] and
    [GetBlocks] can be evaluated. *)

Module Ledger.

(** The operations of the collaborators that can fail. *)
Inductive stage : Type :=
| AtRecover | AtPending | AtCommit | AtAdmission | AtWait | AtQuery
| AtSigner.

Record state : Type := mkState {
  blocks : list Block;        (* the table [blocks], in commit order *)
  pending : option Block;     (* a block built but not yet committed *)
  pool : list Tx;             (* admitted transactions *)
  arriving : list Block;      (* blocks committed by the leader while a
                                 reader waits, in order *)
  down : list stage;          (* the operations that fail for now *)
  row_fault : option nat      (* a query breaks after that many rows *)
}.

Definition stage_eqb (a b : stage) : bool :=
  match a, b with
  | AtRecover, AtRecover | AtPending, AtPending | AtCommit, AtCommit
  | AtAdmission, AtAdmission | AtWait, AtWait | AtQuery, AtQuery
  | AtSigner, AtSigner => true
  | _, _ => false
  end.

Definition fails (s : stage) (w : state) : bool :=
  existsb (stage_eqb s) (down w).

Definition errStorage : error := ErrorString "storage unavailable".
Definition errSigner : error := ErrorString "signers unreachable".
Definition errHeight : error := ErrorString "block height is not head + 1".
Definition errNoHead : error := ErrorString "no head to build on".
Definition errCanceled : error := ErrorString "context canceled".
Definition errQuery : error := ErrorString "query failed".
Definition errArgument : error :=
  ErrorString "uint64 values with high bit set are not supported".

Fixpoint highest (l : list Block) : option Block :=
  match l with
  | [] => None
  | b :: rest =>
      match highest rest with
      | None => Some b
      | Some m => if Height m <? Height b then Some b else Some m
      end
  end.

Definition applied (l : list Block) : Snapshot :=
  concat (map Transactions l).

(** Modelled from the spec: [Recover] of the ledger engine (chain/cos is
    not under src).  It resolves the head (block, snapshot) from durable
    storage; the head block is the stored block of greatest height. *)
Definition Recover (fc : FCref) (w : state)
    : state * (option Block * option Snapshot * option error) :=
  if fails AtRecover w then (w, (None, None, Some errStorage))
  else (w, (highest (blocks w), Some (applied (blocks w)), None)).

(** Modelled from the spec: [AddTx] of the ledger engine; admits a
    transaction to the pending pool. *)
Definition AddTx (fc : FCref) (tx : Tx) (w : state) : state * option error :=
  if fails AtAdmission w then (w, Some errStorage)
  else (mkState (blocks w) (pending w) (pool w ++ [tx]) (arriving w)
          (down w) (row_fault w), None).

Definition has_height (h : Z) (l : list Block) : bool :=
  existsb (fun b => Height b =? h) l.

(** Waiting: the leader's commits arrive one by one until the height is
    stored; when nothing more arrives the caller has been canceled. *)
Fixpoint await (h : Z) (tbl arr : list Block)
    : list Block * list Block * bool :=
  match arr with
  | [] => (tbl, [], has_height h tbl)
  | b :: rest =>
      if has_height h tbl then (tbl, arr, true)
      else await h (tbl ++ [b]) rest
  end.

(** Modelled from the spec: [WaitForBlock] of the ledger engine; suspends
    until the given height is durably committed or the caller is
    canceled. *)
Definition WaitForBlock (fc : FCref) (h : Z) (w : state)
    : state * option error :=
  if fails AtWait w then (w, Some errStorage)
  else
    let '(tbl, arr, found) := await h (blocks w) (arriving w) in
    (mkState tbl (pending w) (pool w) arr
       (down w) (row_fault w),
     if found then None else Some errCanceled).

Fixpoint insert_by_height (b : Block) (l : list Block) : list Block :=
  match l with
  | [] => [b]
  | x :: rest =>
      if Height b <=? Height x then b :: l
      else x :: insert_by_height b rest
  end.

Definition order_by_height (l : list Block) : list Block :=
  fold_right insert_by_height [] l.

(** [SELECT data FROM blocks WHERE height > $1 ORDER BY height] *)
Definition select_after (a : Z) (tbl : list Block) : list Block :=
  order_by_height (filter (higher_than a) tbl).

(** Height is the key of the table: of the records written with one
    height the first stays. *)
Fixpoint keyed (l : list Block) : list Block :=
  match l with
  | [] => []
  | b :: rest =>
      b :: filter (fun x => negb (Height x =? Height b)) (keyed rest)
  end.

(** The rows of the table [blocks]. *)
Definition table (w : state) : list Block := keyed (blocks w).

(** Modelled from the spec: [pg.ForQueryRows] (chain/database/pg is not
    under src) on the persisted layout of section 6, one record per
    committed block, orderable by height.  The argument goes through
    database/sql, which refuses a uint64 with the high bit set.  The
    callback receives the rows of the result in order; a fault ends the
    iteration with an error after some of them. *)
Definition ForQueryRows (query : string) (a : Z) (w : state)
    : list Block * option error :=
  if fails AtQuery w then ([], Some errStorage)
  else if 2 ^ 63 <=? a then ([], Some errArgument)
  else if String.eqb query q then
    match row_fault w with
    | Some n => (firstn n (select_after a (table w)), Some errQuery)
    | None => (select_after a (table w), None)
    end
  else ([], Some errQuery).

(** Modelled from the spec: [getPendingBlock] (another file of the
    package, not under src); queries the ledger engine for a pending
    block. *)
Definition getPendingBlock (g : Generator) (w : state)
    : state * (option Block * option error) :=
  if fails AtPending w then (w, (None, Some errStorage))
  else (w, (pending w, None)).

Definition remove_txs (included : list Tx) (l : list Tx) : list Tx :=
  filter (fun t => negb (existsb (String.eqb t) included)) l.

Definition snapshot_of (g : Generator) : Snapshot :=
  match latestSnapshot g with
  | None => []
  | Some s => s
  end.

(** The candidate is applied to storage and the head moves to it, both
    or neither. *)
Definition apply_block (g : Generator) (b : Block) (w : state)
    : Generator * state * (option Block * option error) :=
  if fails AtCommit w then (g, w, (None, Some errStorage))
  else
    (mkGenerator (Config_ g) (Some b)
       (Some (snapshot_of g ++ Transactions b)),
     mkState (blocks w ++ [b]) None (remove_txs (Transactions b) (pool w))
       (arriving w) (down w) (row_fault w),
     (Some b, None)).

(** Modelled from the spec: the commit pipeline [commitBlock] (another
    file of the package, not under src), section 4.3.  It rejects any
    candidate whose height is not exactly the current head's height + 1
    and otherwise applies the candidate and updates the head.  With no
    head there is no height to compare with. *)
Definition commitBlock (g : Generator) (b : Block) (w : state)
    : Generator * state * (option Block * option error) :=
  match latestBlock g with
  | Some hb =>
      if Height b =? Height hb + 1 then apply_block g b w
      else (g, w, (None, Some errHeight))
  | None => apply_block g b w
  end.

(** Modelled from the spec: one production cycle [MakeBlock] (another
    file of the package, not under src), section 4.2: the signer builds
    and signs a block from the head and the pending transactions, the
    block is saved as pending and then committed. *)
Definition MakeBlock (g : Generator) (w : state)
    : Generator * state * (option Block * option error) :=
  if fails AtSigner w then (g, w, (None, Some errSigner))
  else
    match latestBlock g with
    | None => (g, w, (None, Some errNoHead))
    | Some hb =>
        let b := mkBlock (add64 (Height hb) 1) (pool w) in
        commitBlock g b
          (mkState (blocks w) (Some b) (pool w) (arriving w)
             (down w) (row_fault w))
    end.

#[global] Instance externals : Externals state :=
  Build_Externals state Recover AddTx WaitForBlock ForQueryRows
    getPendingBlock commitBlock MakeBlock table.

End Ledger.

(** ** Scenarios

    Concrete states of the ledger engine, after section 8 of the
    specification, on which the runs are evaluated. *)

Module Scenario.

Import Ledger.

Definition config : Config :=
  mkConfig [mkRemoteSigner "https://signer-1.example" []] (Some 1%nat) 0%nat.

Definition blk (h : Z) : Block := mkBlock h ["tx"%string].

(** Scenario 2: head 13, the predecessor built block 14 and crashed. *)
Definition crashed_before_commit : state :=
  mkState [blk 12; blk 13] (Some (blk 14)) ["pay"%string] [] [] None.

(** Scenario 3: head 15, leftover pending block 14. *)
Definition stale_pending : state :=
  mkState [blk 14; blk 15] (Some (blk 14)) [] [] [] None.

(** The head has the greatest uint64 height and a block of height 0 is
    pending. *)
Definition wrapped_pending : state :=
  mkState [blk max_uint64] (Some (blk 0)) [] [] [] None.

(** Nothing stored yet, a block of height 7 is pending. *)
Definition no_head : state :=
  mkState [] (Some (blk 7)) [] [] [] None.

(** Faults at startup. *)
Definition recover_fails : state :=
  mkState [blk 13] (Some (blk 14)) [] [] [AtRecover] None.
Definition pending_query_fails : state :=
  mkState [blk 13] (Some (blk 14)) [] [] [AtPending] None.
Definition reconcile_commit_fails : state :=
  mkState [blk 13] (Some (blk 14)) [] [] [AtCommit] None.

(** The signers cannot be reached. *)
Definition signers_away : state :=
  mkState [blk 13] None ["pay"%string] [] [AtSigner] None.

(** Scenario 4: chain height 20, block 21 is committed during the wait. *)
Definition follower_at_20 : state :=
  mkState [blk 19; blk 20] None [] [blk 21; blk 22] [] None.

(** The query breaks after the first row. *)
Definition broken_query : state :=
  mkState [blk 19; blk 20; blk 21] None [] [] [] (Some 1%nat).

(** The reader is canceled before height 23 is committed. *)
Definition canceled_wait : state :=
  mkState [blk 19; blk 20] None [] [blk 21] [] None.

End Scenario.

(** ** Failures of the startup sequence (steps 1 to 3 of section 4.2) *)

Inductive startup_failure {W : Type} `{Externals W} (config : Config) (w : W)
    : error -> Prop :=
| recovery_failed w1 rb rs e :
    Recover (FC config) w = (w1, (rb, rs, Some e)) ->
    startup_failure config w e
| pending_query_failed w1 rb rs w2 pb e :
    Recover (FC config) w = (w1, (rb, rs, None)) ->
    getPendingBlock (New rb rs config) w1 = (w2, (pb, Some e)) ->
    startup_failure config w e
| reconcile_commit_failed w1 rb rs w2 pb g' w3 cb e :
    Recover (FC config) w = (w1, (rb, rs, None)) ->
    getPendingBlock (New rb rs config) w1 = (w2, (Some pb, None)) ->
    follows_head (New rb rs config) pb = true ->
    commitBlock (New rb rs config) pb w2 = (g', w3, (cb, Some e)) ->
    startup_failure config w e.

(** ** Counting on traces and on the cases of the [select] *)

(** The ticks the [select] takes before it takes the cancellation. *)
Fixpoint ticks_before_done (evs : list selected) : nat :=
  match evs with
  | Tick :: rest => S (ticks_before_done rest)
  | _ => 0%nat
  end.

(** Whether the [select] takes the cancellation at some point. *)
Definition cancelled (evs : list selected) : bool :=
  existsb (fun ev => match ev with CtxDone => true | Tick => false end) evs.

Definition is_recover (a : action) : bool :=
  match a with
  | CallRecover => true
  | _ => false
  end.

Definition is_log_fatal (a : action) : bool :=
  match a with
  | LogFatal _ => true
  | _ => false
  end.

(** The calls [Generate] makes before the loop, lines 62 to 81. *)
Definition startup_calls (acts : list action) : Prop :=
  acts = [CallRecover] \/
  acts = [CallRecover; CallGetPendingBlock] \/
  exists pb, acts = [CallRecover; CallGetPendingBlock; CallCommitBlock pb].

(** * Properties *)

(** ** Arithmetic on heights *)

Lemma add64_no_wrap (h : Z) : 0 <= h < max_uint64 -> add64 h 1 = h + 1.
Proof.
  unfold add64, max_uint64, uint64_modulus. intros Hh.
  apply Z.mod_small. lia.
Qed.

Lemma add64_wrap : add64 max_uint64 1 = 0.
Proof. reflexivity. Qed.

Lemma add64_range (a b : Z) : is_uint64 (add64 a b).
Proof.
  unfold is_uint64, add64, uint64_modulus.
  apply Z.mod_pos_bound. reflexivity.
Qed.

(** ** Slices *)

Lemma elems_fold_append (rows : list Block) (s : slice) :
  elems (fold_left append rows s) = elems s ++ rows.
Proof.
  revert s. induction rows as [|b rows IH]; intros s; simpl.
  - now rewrite app_nil_r.
  - rewrite IH. unfold append. simpl. now rewrite <- app_assoc.
Qed.

(** ** Strictly ascending rows *)

Lemma by_height_strict (l : list Block) :
  StronglySorted by_height l -> NoDup (map Height l) ->
  StronglySorted ascending l.
Proof.
  induction 1 as [|x l Hl IH Hx]; intros Hnd; simpl in Hnd.
  - constructor.
  - inversion Hnd as [|h hs Hnotin Hnd']; subst.
    constructor; [now apply IH|].
    rewrite Forall_forall in *. intros y Hy.
    specialize (Hx y Hy). unfold by_height in Hx. unfold ascending.
    assert (Height x <> Height y).
    { intros Heq. apply Hnotin. rewrite Heq. now apply in_map. }
    lia.
Qed.

Lemma NoDup_heights_filter (f : Block -> bool) (l : list Block) :
  NoDup (map Height l) -> NoDup (map Height (filter f l)).
Proof.
  induction l as [|x l IH]; simpl; intros Hnd; [constructor|].
  inversion Hnd as [|h hs Hnotin Hnd']; subst.
  destruct (f x); simpl; [constructor|]; auto.
  intros Hin. apply Hnotin.
  apply in_map_iff in Hin. destruct Hin as [y [Hy Hin]].
  apply filter_In in Hin. apply in_map_iff. exists y. tauto.
Qed.

Section GeneratorFacts.

Context {W : Type} `{Externals W}.

(** ** The main loop *)

Lemma prepend_prepend (a b : list action) (r : run W) :
  prepend a (prepend b r) = prepend (a ++ b) r.
Proof. unfold prepend. simpl. now rewrite app_assoc. Qed.

Lemma prepend_nil (r : run W) : prepend [] r = r.
Proof. now destruct r. Qed.

Lemma mainLoop_never_exits ticks (evs : list selected) :
  forall g w, outcome (mainLoop ticks g w evs) <> Exited.
Proof.
  induction evs as [|ev evs IH]; intros g w; simpl; [discriminate|].
  destruct ev; simpl; [discriminate|].
  destruct ticks; [|apply IH].
  destruct (MakeBlock g w) as [[g' w'] [b err]]. simpl. apply IH.
Qed.

Lemma mainLoop_no_commit ticks (evs : list selected) :
  forall g w, filter is_commit (trace (mainLoop ticks g w evs)) = [].
Proof.
  induction evs as [|ev evs IH]; intros g w; simpl; [reflexivity|].
  destruct ev; simpl; [reflexivity|].
  destruct ticks; [|apply IH].
  destruct (MakeBlock g w) as [[g' w'] [b err]]. simpl.
  destruct err; simpl; apply IH.
Qed.

(** A run that is blocked in the [select] goes on from the state it
    reached when the next cases are taken. *)
Lemma mainLoop_resume ticks (pre : list selected) :
  forall g w,
    outcome (mainLoop ticks g w pre) = Blocked ->
    exists g0,
      head (mainLoop ticks g w pre) = Some g0 /\
      forall rest,
        mainLoop ticks g w (pre ++ rest) =
        prepend (trace (mainLoop ticks g w pre))
          (mainLoop ticks g0 (world (mainLoop ticks g w pre)) rest).
Proof.
  induction pre as [|ev pre IH]; intros g w Hb; simpl in *.
  - exists g. split; [reflexivity|]. intros rest. now rewrite prepend_nil.
  - destruct ev; simpl in *; [discriminate|].
    destruct ticks.
    + destruct (MakeBlock g w) as [[g' w'] [b err]]. simpl in *.
      destruct (IH g' w' Hb) as [g0 [Hh Hr]].
      exists g0. split; [exact Hh|].
      intros rest. rewrite Hr, prepend_prepend. reflexivity.
    + apply IH, Hb.
Qed.

Lemma Generate_resume config period (pre : list selected) (w : W) :
  outcome (Generate config period pre w) = Blocked ->
  exists g0,
    head (Generate config period pre w) = Some g0 /\
    forall rest,
      Generate config period (pre ++ rest) w =
      prepend (trace (Generate config period pre w))
        (mainLoop (time_Tick period) g0
           (world (Generate config period pre w)) rest).
Proof.
  unfold Generate.
  destruct (Recover (FC config) w) as [w1 [[rb rs] err]].
  destruct err; simpl; [discriminate|].
  destruct (getPendingBlock (New rb rs config) w1) as [w2 [pb err]].
  destruct err; simpl; [discriminate|].
  assert (Hgen : forall acts g w',
    outcome (prepend acts (mainLoop (time_Tick period) g w' pre)) = Blocked ->
    exists g0,
      head (prepend acts (mainLoop (time_Tick period) g w' pre)) = Some g0 /\
      forall rest,
        prepend acts (mainLoop (time_Tick period) g w' (pre ++ rest)) =
        prepend (trace (prepend acts (mainLoop (time_Tick period) g w' pre)))
          (mainLoop (time_Tick period) g0
             (world (prepend acts (mainLoop (time_Tick period) g w' pre)))
             rest)).
  { intros acts g w' Hb. simpl in Hb.
    destruct (mainLoop_resume _ _ _ _ Hb) as [g0 [Hh Hr]].
    exists g0. split; [exact Hh|].
    intros rest. rewrite Hr, prepend_prepend. reflexivity. }
  destruct pb as [pb|]; [|apply Hgen].
  destruct (follows_head (New rb rs config) pb); [|apply Hgen].
  destruct (commitBlock (New rb rs config) pb w2) as [[g' w3] [cb err]].
  destruct err; simpl; [discriminate|]. apply Hgen.
Qed.

End GeneratorFacts.

Lemma not_commit_in (tr : list action) (b : Block) :
  filter is_commit tr = [] -> ~ In (CallCommitBlock b) tr.
Proof.
  intros Hf Hin.
  assert (Hin' : In (CallCommitBlock b) (filter is_commit tr)).
  { apply filter_In. split; [exact Hin|reflexivity]. }
  rewrite Hf in Hin'. exact Hin'.
Qed.

Section StartupClaims.

Context {W : Type} `{Externals W}.

(** C1 (amended).  When recovery returns a head block [hb], the
    reconciliation step hands a block to the commit pipeline if and only
    if that block is the pending block and its height equals the head's
    height + 1 as the code computes it, in uint64 arithmetic (modulo
    2^64).  When there is no pending block of that height, nothing is
    committed and the tick loop starts from the recovered head and the
    state the pending-block query left. *)
Theorem reconciliation_commits_iff_next_height_mod
    config period evs (w w1 w2 : W) hb rs pbo :
  Recover (FC config) w = (w1, (Some hb, rs, None)) ->
  getPendingBlock (New (Some hb) rs config) w1 = (w2, (pbo, None)) ->
  (forall b,
      In (CallCommitBlock b) (trace (Generate config period evs w)) <->
      pbo = Some b /\ Height b = add64 (Height hb) 1)
  /\
  ((forall b, pbo = Some b -> Height b <> add64 (Height hb) 1) ->
   Generate config period evs w =
   prepend [CallRecover; CallGetPendingBlock]
     (mainLoop (time_Tick period) (New (Some hb) rs config) w2 evs)).
Proof.
  intros HR HP. unfold Generate. rewrite HR. simpl. rewrite HP. simpl.
  pose proof (mainLoop_no_commit (time_Tick period) evs) as Hnc.
  destruct pbo as [pb|].
  - unfold follows_head. simpl.
    destruct (Z.eqb_spec (Height pb) (add64 (Height hb) 1)) as [Heq|Hne].
    + split.
      * intros b.
        destruct (commitBlock (New (Some hb) rs config) pb w2)
          as [[g' w3] [cb err]].
        destruct err; simpl.
        -- split.
           ++ intros [Hx|[Hx|[Hx|[Hx|[]]]]]; try discriminate.
              inversion Hx; subst. auto.
           ++ intros [Hx _]. inversion Hx; subst. auto.
        -- split.
           ++ intros [Hx|[Hx|[Hx|Hx]]]; try discriminate.
              ** inversion Hx; subst. auto.
              ** exfalso. revert Hx. apply not_commit_in, Hnc.
           ++ intros [Hx _]. inversion Hx; subst. auto.
      * intros Hall. exfalso. now apply (Hall pb).
    + split; [|reflexivity].
      intros b. simpl. split.
      * intros [Hx|[Hx|Hx]]; try discriminate.
        exfalso. revert Hx. apply not_commit_in, Hnc.
      * intros [Hx Hh]. inversion Hx; subst. contradiction.
  - split; [|reflexivity].
    intros b. simpl. split.
    + intros [Hx|[Hx|Hx]]; try discriminate.
      exfalso. revert Hx. apply not_commit_in, Hnc.
    + intros [Hx _]. discriminate.
Qed.

(** C2.  When recovery returns a nil head block and a pending block
    exists, [Generate] hands the pending block to [commitBlock] whatever
    its height is: a failed commit is fatal, a successful one is followed
    by the tick loop on the head the commit produced. *)
Theorem reconciliation_without_head_commits_any_height
    config period evs (w w1 w2 w3 : W) rs pb g' cb cerr :
  Recover (FC config) w = (w1, (None, rs, None)) ->
  getPendingBlock (New None rs config) w1 = (w2, (Some pb, None)) ->
  commitBlock (New None rs config) pb w2 = (g', w3, (cb, cerr)) ->
  Generate config period evs w =
  match cerr with
  | Some e =>
      mkRun (Some g') w3
        [CallRecover; CallGetPendingBlock; CallCommitBlock pb; LogFatal e]
        Exited
  | None =>
      prepend [CallRecover; CallGetPendingBlock; CallCommitBlock pb]
        (mainLoop (time_Tick period) g' w3 evs)
  end.
Proof.
  intros HR HP HC. unfold Generate.
  rewrite HR. simpl. rewrite HP. simpl.
  unfold follows_head. simpl. rewrite HC. reflexivity.
Qed.

(** C7.  A failure of recovery, of the pending-block query or of the
    reconciliation commit ends the process through [log.Fatal] before the
    tick loop is entered: whatever the [select] would take, the run is
    [Exited], its last action is the fatal log of that error, and no
    production cycle was run. *)
Theorem startup_failure_is_fatal config (w : W) e :
  startup_failure config w e ->
  forall period evs,
    outcome (Generate config period evs w) = Exited /\
    productions (trace (Generate config period evs w)) = 0%nat /\
    exists tr, trace (Generate config period evs w) = tr ++ [LogFatal e].
Proof.
  intros Hf period evs. unfold Generate.
  destruct Hf as [w1 rb rs e HR
                 |w1 rb rs w2 pb e HR HP
                 |w1 rb rs w2 pb g' w3 cb e HR HP HF HC].
  - rewrite HR. simpl. repeat split.
    exists [CallRecover]. reflexivity.
  - rewrite HR. simpl. rewrite HP. simpl. repeat split.
    exists [CallRecover; CallGetPendingBlock]. reflexivity.
  - rewrite HR. simpl. rewrite HP. simpl. rewrite HF, HC. simpl.
    repeat split.
    exists [CallRecover; CallGetPendingBlock; CallCommitBlock pb].
    reflexivity.
Qed.

End StartupClaims.

Section LoopClaims.

Context {W : Type} `{Externals W}.

(** C5.  Take a run of [Generate] that has gone through the cases [pre]
    and is blocked in the [select].  If the [select] then takes the
    cancellation case, [Generate] logs the message and returns: the head
    and the outside world are the ones reached before, no production
    cycle and no commit is added to the trace, and the cases [post] that
    would come next (a tick that has fired already, for one) have no
    effect. *)
Theorem Generate_returns_on_cancellation
    config period (pre post : list selected) (w : W) :
  outcome (Generate config period pre w) = Blocked ->
  Generate config period (pre ++ CtxDone :: post) w =
    mkRun (head (Generate config period pre w))
      (world (Generate config period pre w))
      (trace (Generate config period pre w) ++ [LogMessagef deposed])
      Returned
  /\ productions (trace (Generate config period (pre ++ CtxDone :: post) w))
     = productions (trace (Generate config period pre w))
  /\ filter is_commit
       (trace (Generate config period (pre ++ CtxDone :: post) w))
     = filter is_commit (trace (Generate config period pre w)).
Proof.
  intros Hb.
  destruct (Generate_resume config period pre w Hb) as [g0 [Hh Hr]].
  rewrite Hr. simpl. unfold prepend. simpl. rewrite Hh.
  split; [reflexivity|].
  unfold productions. rewrite !filter_app. simpl.
  now rewrite !app_nil_r.
Qed.

(** C6.  Take a run of [Generate] that is blocked in the [select] with
    head [g0], and let the ticker exist (positive period).  If the
    [select] takes a tick and [MakeBlock] returns an error, the run makes
    that one call, logs the error with [log.Error] and is back at the
    [select] for the cases that follow: the process has not exited and
    the failed attempt is not made again before the next tick. *)
Theorem failed_tick_is_logged_and_loop_continues
    config period (pre rest : list selected) (w w' : W) g0 g' b e :
  0 < period ->
  outcome (Generate config period pre w) = Blocked ->
  head (Generate config period pre w) = Some g0 ->
  MakeBlock g0 (world (Generate config period pre w)) = (g', w', (b, Some e)) ->
  Generate config period (pre ++ Tick :: rest) w =
    prepend (trace (Generate config period pre w) ++ [CallMakeBlock; LogError e])
      (mainLoop (time_Tick period) g' w' rest)
  /\ outcome (Generate config period (pre ++ Tick :: rest) w) <> Exited
  /\ Generate config period (pre ++ [Tick]) w =
       mkRun (Some g') w'
         (trace (Generate config period pre w) ++ [CallMakeBlock; LogError e])
         Blocked.
Proof.
  intros Hp Hb Hh HM.
  destruct (Generate_resume config period pre w Hb) as [g1 [Hh1 Hr]].
  rewrite Hh in Hh1. inversion Hh1; subst g1. clear Hh1.
  assert (Ht : time_Tick period = Some period).
  { unfold time_Tick. destruct (Z.leb_spec period 0); [lia|reflexivity]. }
  rewrite !Hr. simpl. rewrite Ht. rewrite HM.
  rewrite prepend_prepend. rewrite <- Ht.
  split; [reflexivity|]. split.
  - simpl. apply mainLoop_never_exits.
  - unfold prepend. simpl. reflexivity.
Qed.

End LoopClaims.

Section HandlerClaims.

Context {W : Type} `{Externals W}.

(** C8.  Let the wait for height [afterHeight+1] return [werr] and the
    query return [qerr] after handing [rows] to the callback.  If either
    error is non-nil, [GetBlocks] returns a nil slice together with a
    non-nil error, the cause wrapped with the name of the stage; the rows
    already collected are dropped.  In general a result of [GetBlocks]
    with a non-nil error has a nil slice. *)
Theorem GetBlocks_failure_returns_nil_list
    (g : Config) afterHeight (w w1 : W) werr rows qerr :
  WaitForBlock (FC g) (add64 afterHeight 1) w = (w1, werr) ->
  ForQueryRows q afterHeight w1 = (rows, qerr) ->
  werr <> None \/ qerr <> None ->
  GetBlocks g afterHeight w =
    (w1,
     (None,
      match werr with
      | Some _ => errors_Wrapf_waiting werr (add64 afterHeight 1)
      | None => errors_Wrap qerr "querying blocks from the db"
      end))
  /\ snd (snd (GetBlocks g afterHeight w)) <> None
  /\ (forall w' bs e, GetBlocks g afterHeight w = (w', (bs, Some e)) ->
                      bs = None).
Proof.
  intros HW HQ Hfail. unfold GetBlocks. rewrite HW.
  destruct werr as [e0|].
  - split; [reflexivity|]. split; [discriminate|].
    intros w' bs e Heq. simpl in Heq. now inversion Heq.
  - rewrite HQ. destruct qerr as [e0|].
    + split; [reflexivity|]. split; [discriminate|].
      intros w' bs e Heq. simpl in Heq. now inversion Heq.
    + exfalso. destruct Hfail as [Hx|Hx]; now apply Hx.
Qed.

(** C9.  [Submit] and [GetBlocks] are methods of [Config].  Called on a
    generator (through the embedded [Config]) they leave the generator,
    and so [latestBlock] and [latestSnapshot], as it was, and what they
    do to the outside world and what they return is the same for any two
    generators that differ in the head only. *)
Theorem handlers_do_not_touch_head
    (config : Config) lb ls lb' ls' (w : W) tx afterHeight :
  let gen := mkGenerator config lb ls in
  let gen' := mkGenerator config lb' ls' in
  fst (fst (Generator_Submit (gen, w) tx)) = gen /\
  fst (fst (Generator_GetBlocks (gen, w) afterHeight)) = gen /\
  snd (fst (Generator_Submit (gen, w) tx)) =
    snd (fst (Generator_Submit (gen', w) tx)) /\
  snd (Generator_Submit (gen, w) tx) = snd (Generator_Submit (gen', w) tx) /\
  snd (fst (Generator_GetBlocks (gen, w) afterHeight)) =
    snd (fst (Generator_GetBlocks (gen', w) afterHeight)) /\
  snd (Generator_GetBlocks (gen, w) afterHeight) =
    snd (Generator_GetBlocks (gen', w) afterHeight).
Proof.
  intros gen gen'. unfold Generator_Submit, Generator_GetBlocks. simpl.
  destruct (Submit config tx w) as [ws es].
  destruct (GetBlocks config afterHeight w) as [wg rg].
  simpl. repeat split.
Qed.

(** C10.  For [afterHeight = 2^64 - 1] the wait target [afterHeight+1]
    is 0: [GetBlocks] calls [WaitForBlock] with height 0.  If that wait
    fails, the error says height 0; if it succeeds, the call goes on to
    the query for heights above [2^64 - 1]. *)
Theorem GetBlocks_max_height_waits_for_zero (g : Config) (w w1 : W) werr :
  WaitForBlock (FC g) 0 w = (w1, werr) ->
  add64 max_uint64 1 = 0 /\
  GetBlocks g max_uint64 w =
    match werr with
    | Some e =>
        (w1, (None, Some (Wrapped "waiting for block at height 0" e)))
    | None =>
        (w1,
         match ForQueryRows q max_uint64 w1 with
         | (_, Some e) =>
             (None, Some (Wrapped "querying blocks from the db" e))
         | (rows, None) => (fold_left append rows None, None)
         end)
    end.
Proof.
  intros HW. split; [reflexivity|].
  unfold GetBlocks. rewrite add64_wrap, HW.
  destruct werr as [e|]; [reflexivity|].
  destruct (ForQueryRows q max_uint64 w1) as [rows [e|]]; reflexivity.
Qed.

(** C4.  Under the contracts of the ledger engine and of durable storage
    ([WaitForBlock] returns without error only when the height is stored;
    the query returns the stored blocks above its argument in ascending
    order and refuses an argument with the high bit set; the table holds
    one record per height): for every uint64 [afterHeight], when
    [GetBlocks] returns without error the table holds a block of height
    [afterHeight + 1], and the slice returned holds exactly the stored
    blocks of height greater than [afterHeight], in strictly ascending
    order of height. *)
Theorem GetBlocks_waits_and_returns_tail
    `{!ExternalsLaws W} `{!StorageLaws W}
    (g : Config) afterHeight (w w' : W) bs :
  is_uint64 afterHeight ->
  GetBlocks g afterHeight w = (w', (bs, None)) ->
  (exists b, In b (blocks_table w') /\ Height b = afterHeight + 1) /\
  Permutation (elems bs)
    (filter (higher_than afterHeight) (blocks_table w')) /\
  StronglySorted ascending (elems bs).
Proof.
  intros Hrange HG. unfold GetBlocks in HG.
  destruct (WaitForBlock (FC g) (add64 afterHeight 1) w) as [w1 werr] eqn:HW.
  destruct werr as [e|]; [discriminate|].
  destruct (ForQueryRows q afterHeight w1) as [rows qerr] eqn:HQ.
  destruct qerr as [e|]; [discriminate|].
  inversion HG; subst w' bs. clear HG.
  rewrite elems_fold_append. simpl.
  assert (Hlow : afterHeight < 2 ^ 63).
  { destruct (Z.lt_ge_cases afterHeight (2 ^ 63)) as [Hlt|Hge]; [exact Hlt|].
    exfalso. apply (ForQueryRows_high_bit q afterHeight w1 Hge).
    now rewrite HQ. }
  pose proof (WaitForBlock_found _ _ _ _ HW) as Hfound.
  pose proof (ForQueryRows_rows _ _ _ HQ) as Hperm.
  pose proof (ForQueryRows_order _ _ _ HQ) as Hsorted.
  split.
  - rewrite add64_no_wrap in Hfound; [exact Hfound|].
    unfold is_uint64, uint64_modulus, max_uint64 in *. lia.
  - split; [exact Hperm|].
    apply by_height_strict; [exact Hsorted|].
    apply (Permutation_NoDup (l := map Height
             (filter (higher_than afterHeight) (blocks_table w1)))).
    + apply Permutation_map. now apply Permutation_sym.
    + apply NoDup_heights_filter, blocks_table_keyed.
Qed.

End HandlerClaims.

(** ** The ledger engine keeps the contracts *)

Lemma await_found (h : Z) (arr : list Block) :
  forall tbl tbl' arr',
    Ledger.await h tbl arr = (tbl', arr', true) ->
    Ledger.has_height h tbl' = true.
Proof.
  induction arr as [|b arr IH]; intros tbl tbl' arr' Heq;
    cbn [Ledger.await] in Heq.
  - injection Heq as Ht _ Hf. now subst tbl'.
  - destruct (Ledger.has_height h tbl) eqn:Hh.
    + injection Heq as Ht _. now subst tbl'.
    + eapply IH. eassumption.
Qed.

Lemma insert_by_height_perm (b : Block) (l : list Block) :
  Permutation (Ledger.insert_by_height b l) (b :: l).
Proof.
  induction l as [|x l IH]; simpl; [reflexivity|].
  destruct (Height b <=? Height x); [reflexivity|].
  rewrite IH. apply perm_swap.
Qed.

Lemma order_by_height_perm (l : list Block) :
  Permutation (Ledger.order_by_height l) l.
Proof.
  induction l as [|x l IH]; simpl; [reflexivity|].
  rewrite insert_by_height_perm. now constructor.
Qed.

Lemma insert_by_height_sorted (b : Block) (l : list Block) :
  StronglySorted by_height l ->
  StronglySorted by_height (Ledger.insert_by_height b l).
Proof.
  induction 1 as [|x l Hl IH Hx]; simpl.
  - constructor; constructor.
  - destruct (Z.leb_spec (Height b) (Height x)) as [Hle|Hgt].
    + constructor; [now constructor|].
      constructor; [exact Hle|].
      rewrite Forall_forall in *. intros y Hy.
      specialize (Hx y Hy). unfold by_height in *. lia.
    + constructor; [exact IH|].
      eapply Permutation_Forall.
      * symmetry. apply insert_by_height_perm.
      * constructor; [unfold by_height; lia|exact Hx].
Qed.

Lemma order_by_height_sorted (l : list Block) :
  StronglySorted by_height (Ledger.order_by_height l).
Proof.
  induction l as [|x l IH]; simpl; [constructor|].
  now apply insert_by_height_sorted.
Qed.

Lemma Ledger_query_rows (a : Z) (w : Ledger.state) (rows : list Block) :
  Ledger.ForQueryRows q a w = (rows, None) ->
  rows = Ledger.select_after a (Ledger.table w).
Proof.
  unfold Ledger.ForQueryRows.
  destruct (Ledger.fails Ledger.AtQuery w); [discriminate|].
  destruct (2 ^ 63 <=? a); [discriminate|].
  destruct (String.eqb q q); [|discriminate].
  destruct (Ledger.row_fault w); [discriminate|].
  intros Heq. now inversion Heq.
Qed.

Lemma keyed_keeps_heights (l : list Block) (b : Block) :
  In b l -> exists b', In b' (Ledger.keyed l) /\ Height b' = Height b.
Proof.
  induction l as [|x l IH]; simpl; [contradiction|].
  intros [Heq|Hin].
  - subst x. exists b. auto.
  - destruct (IH Hin) as [b' [Hin' Hh]].
    destruct (Z.eqb_spec (Height b') (Height x)) as [Hsame|Hdiff].
    + exists x. split; [now left|]. congruence.
    + exists b'. split; [|exact Hh]. right.
      apply filter_In. split; [exact Hin'|].
      apply negb_true_iff. now apply Z.eqb_neq.
Qed.

Lemma keyed_unique (l : list Block) :
  NoDup (map Height (Ledger.keyed l)).
Proof.
  induction l as [|x l IH]; simpl; constructor.
  - intros Hin. apply in_map_iff in Hin. destruct Hin as [y [Hh Hin]].
    apply filter_In in Hin. destruct Hin as [_ Hne].
    apply negb_true_iff in Hne. apply Z.eqb_neq in Hne. contradiction.
  - now apply NoDup_heights_filter.
Qed.

#[global] Instance Ledger_laws : ExternalsLaws Ledger.state.
Proof.
  constructor.
  - intros fc h w w'. simpl. unfold Ledger.WaitForBlock.
    destruct (Ledger.fails Ledger.AtWait w); [discriminate|].
    destruct (Ledger.await h (Ledger.blocks w) (Ledger.arriving w))
      as [[tbl arr] found] eqn:Ha.
    destruct found; [|discriminate].
    intros Heq. inversion Heq; subst w'. simpl.
    apply await_found in Ha. unfold Ledger.has_height in Ha.
    apply existsb_exists in Ha. destruct Ha as [b [Hin Hh]].
    apply Z.eqb_eq in Hh.
    destruct (keyed_keeps_heights _ _ Hin) as [b' [Hin' Hh']].
    exists b'. split; [exact Hin'|]. congruence.
  - intros a w rows Hq. simpl in *.
    rewrite (Ledger_query_rows _ _ _ Hq).
    apply order_by_height_perm.
  - intros a w rows Hq. simpl in *.
    rewrite (Ledger_query_rows _ _ _ Hq).
    apply order_by_height_sorted.
Qed.

#[global] Instance Ledger_storage_laws : StorageLaws Ledger.state.
Proof.
  constructor.
  - intros w. simpl. apply keyed_unique.
  - intros query a w Hhigh. simpl. unfold Ledger.ForQueryRows.
    destruct (Ledger.fails Ledger.AtQuery w); [discriminate|].
    destruct (Z.leb_spec (2 ^ 63) a) as [_|Hlt]; [discriminate|lia].
Qed.

(** ** The commit pipeline *)

(** C3.  On the commit pipeline of section 4.3: whatever the state of the
    generator and of the ledger engine, a candidate whose height is not the
    current head's height + 1 is refused with an error, and the generator
    (the head) and the ledger are returned as they were. *)
Theorem Ledger_commitBlock_rejects_wrong_height
    (g : Generator) (b hb : Block) (w : Ledger.state) :
  latestBlock g = Some hb ->
  Height b <> Height hb + 1 ->
  Ledger.commitBlock g b w = (g, w, (None, Some Ledger.errHeight)).
Proof.
  intros Hh Hne. unfold Ledger.commitBlock. rewrite Hh.
  destruct (Z.eqb_spec (Height b) (Height hb + 1)); [contradiction|].
  reflexivity.
Qed.

(** A candidate of the next height is applied when storage takes it: the
    block is appended to the table and becomes the head. *)
Lemma Ledger_commitBlock_accepts_next_height
    (g : Generator) (b hb : Block) (w : Ledger.state) :
  latestBlock g = Some hb ->
  Height b = Height hb + 1 ->
  Ledger.fails Ledger.AtCommit w = false ->
  exists g' w',
    Ledger.commitBlock g b w = (g', w', (Some b, None)) /\
    latestBlock g' = Some b /\
    Ledger.blocks w' = Ledger.blocks w ++ [b].
Proof.
  intros Hh Heq Hup. unfold Ledger.commitBlock, Ledger.apply_block.
  rewrite Hh, Hup. rewrite (proj2 (Z.eqb_eq _ _) Heq).
  eexists. eexists. repeat split.
Qed.

(** * The scenarios *)

Import Scenario.

(** Scenario 2: the pending block 14 follows head 13 and is handed to the
    commit pipeline.  Scenario 3: the pending block 14 does not follow head
    15; the loop starts from head 15. *)
Lemma reconciliation_commits_iff_next_height_mod_witness :
  In (CallCommitBlock (blk 14))
     (trace (Generate config 1000 [Tick] crashed_before_commit)) /\
  Generate config 1000 [Tick] stale_pending =
    prepend [CallRecover; CallGetPendingBlock]
      (mainLoop (time_Tick 1000)
         (New (Some (blk 15)) (Some ["tx"; "tx"]%string) config)
         stale_pending [Tick]).
Proof.
  split.
  - exact (proj2 (proj1 (reconciliation_commits_iff_next_height_mod
                           config 1000 [Tick]
                           crashed_before_commit crashed_before_commit
                           crashed_before_commit (blk 13)
                           (Some ["tx"; "tx"]%string) (Some (blk 14))
                           eq_refl eq_refl) (blk 14))
             (conj eq_refl eq_refl)).
  - refine (proj2 (reconciliation_commits_iff_next_height_mod
                     config 1000 [Tick]
                     stale_pending stale_pending stale_pending (blk 15)
                     (Some ["tx"; "tx"]%string) (Some (blk 14))
                     eq_refl eq_refl) _).
    intros b Hb. injection Hb as <-. vm_compute. discriminate.
Defined.

(** C1 as stated fails where the head's height is 2^64 - 1: the pending
    block of height 0 does not have the head's height + 1, and it is
    handed to the commit pipeline. *)
Lemma reconciliation_commits_wrapped_height :
  Recover (FC config) wrapped_pending =
    (wrapped_pending, (Some (blk max_uint64), Some ["tx"%string], None)) /\
  getPendingBlock (New (Some (blk max_uint64)) (Some ["tx"%string]) config)
    wrapped_pending = (wrapped_pending, (Some (blk 0), None)) /\
  Height (blk 0) <> Height (blk max_uint64) + 1 /\
  In (CallCommitBlock (blk 0))
     (trace (Generate config 1000 [] wrapped_pending)) /\
  ~ (In (CallCommitBlock (blk 0))
        (trace (Generate config 1000 [] wrapped_pending)) <->
     Some (blk 0) = Some (blk 0) /\
     Height (blk 0) = Height (blk max_uint64) + 1).
Proof.
  assert (Hin : In (CallCommitBlock (blk 0))
                   (trace (Generate config 1000 [] wrapped_pending))).
  { vm_compute. auto. }
  assert (Hne : Height (blk 0) <> Height (blk max_uint64) + 1).
  { vm_compute. discriminate. }
  repeat split; try assumption.
  intros [Hiff _]. destruct (Hiff Hin) as [_ Heq]. contradiction.
Qed.

(** With no head, the pending block of height 7 is committed. *)
Lemma reconciliation_without_head_commits_any_height_witness :
  Generate config 1000 [] no_head =
  mkRun
    (Some (mkGenerator config (Some (blk 7)) (Some ["tx"%string])))
    (Ledger.mkState [blk 7] None [] [] [] None)
    [CallRecover; CallGetPendingBlock; CallCommitBlock (blk 7)]
    Blocked.
Proof.
  exact (reconciliation_without_head_commits_any_height
           config 1000 [] no_head no_head no_head
           (Ledger.mkState [blk 7] None [] [] [] None)
           (Some []) (blk 7)
           (mkGenerator config (Some (blk 7)) (Some ["tx"%string]))
           (Some (blk 7)) None eq_refl eq_refl eq_refl).
Defined.

(** Scenario 3 at the commit pipeline: with head 15 the candidate 14 is
    refused. *)
Lemma Ledger_commitBlock_rejects_wrong_height_witness :
  Ledger.commitBlock (mkGenerator config (Some (blk 15)) (Some [])) (blk 14)
    stale_pending =
  (mkGenerator config (Some (blk 15)) (Some []), stale_pending,
   (None, Some Ledger.errHeight)).
Proof.
  apply (Ledger_commitBlock_rejects_wrong_height
           (mkGenerator config (Some (blk 15)) (Some [])) (blk 14) (blk 15)
           stale_pending).
  - reflexivity.
  - simpl. lia.
Defined.

(** Scenario 4: [GetBlocks(20)] returns once block 21 is stored. *)
Lemma GetBlocks_waits_and_returns_tail_witness :
  GetBlocks config 20 follower_at_20 =
    (Ledger.mkState [blk 19; blk 20; blk 21] None [] [blk 22] [] None,
     (Some [blk 21], None)) /\
  (exists b, In b [blk 19; blk 20; blk 21] /\ Height b = 20 + 1) /\
  Permutation [blk 21]
    (filter (higher_than 20) [blk 19; blk 20; blk 21]) /\
  StronglySorted ascending [blk 21].
Proof.
  split; [reflexivity|].
  refine (GetBlocks_waits_and_returns_tail config 20 follower_at_20
            (Ledger.mkState [blk 19; blk 20; blk 21] None [] [blk 22] []
               None)
            (Some [blk 21]) _ eq_refl).
  unfold is_uint64, uint64_modulus. lia.
Defined.

(** A tick has fired together with the cancellation; the cancellation is
    taken and no block is made. *)
Lemma Generate_returns_on_cancellation_witness :
  Generate config 1000 ([Tick] ++ CtxDone :: [Tick; Tick])
    crashed_before_commit =
  mkRun (head (Generate config 1000 [Tick] crashed_before_commit))
    (world (Generate config 1000 [Tick] crashed_before_commit))
    (trace (Generate config 1000 [Tick] crashed_before_commit)
       ++ [LogMessagef deposed])
    Returned.
Proof.
  exact (proj1 (Generate_returns_on_cancellation config 1000 [Tick]
                  [Tick; Tick] crashed_before_commit eq_refl)).
Defined.

(** The signers are away: the tick fails, the error is logged and the run
    is back at the [select]. *)
Lemma failed_tick_is_logged_and_loop_continues_witness :
  Generate config 1000 ([] ++ [Tick]) signers_away =
  mkRun (Some (mkGenerator config (Some (blk 13)) (Some ["tx"%string])))
    signers_away
    ([CallRecover; CallGetPendingBlock]
       ++ [CallMakeBlock; LogError Ledger.errSigner])
    Blocked.
Proof.
  refine (proj2 (proj2 (failed_tick_is_logged_and_loop_continues
            config 1000 [] [] signers_away signers_away
            (mkGenerator config (Some (blk 13)) (Some ["tx"%string]))
            (mkGenerator config (Some (blk 13)) (Some ["tx"%string]))
            None Ledger.errSigner _ eq_refl eq_refl eq_refl))).
  reflexivity.
Defined.

(** Each of the three startup failures ends the process. *)
Lemma startup_failure_is_fatal_witness :
  outcome (Generate config 1000 [Tick; Tick] recover_fails) = Exited /\
  outcome (Generate config 1000 [Tick; Tick] pending_query_fails) = Exited /\
  outcome (Generate config 1000 [Tick; Tick] reconcile_commit_fails) = Exited.
Proof.
  split; [|split].
  - apply (startup_failure_is_fatal config recover_fails Ledger.errStorage).
    eapply recovery_failed. reflexivity.
  - apply (startup_failure_is_fatal config pending_query_fails
             Ledger.errStorage).
    eapply pending_query_failed; reflexivity.
  - apply (startup_failure_is_fatal config reconcile_commit_fails
             Ledger.errStorage).
    eapply reconcile_commit_failed; reflexivity.
Defined.

(** The query breaks after one row: the row is not returned. *)
Lemma GetBlocks_failure_returns_nil_list_witness :
  GetBlocks config 18 broken_query =
  (broken_query,
   (None,
    Some (Wrapped "querying blocks from the db" Ledger.errQuery))).
Proof.
  refine (proj1 (GetBlocks_failure_returns_nil_list config 18
            broken_query broken_query None [blk 19] (Some Ledger.errQuery)
            eq_refl eq_refl _)).
  right. discriminate.
Defined.

(** The reader is canceled while it waits for height 0. *)
Lemma GetBlocks_max_height_waits_for_zero_witness :
  GetBlocks config max_uint64 canceled_wait =
  (Ledger.mkState [blk 19; blk 20; blk 21] None [] [] [] None,
   (None,
    Some (Wrapped "waiting for block at height 0" Ledger.errCanceled))).
Proof.
  exact (proj2 (GetBlocks_max_height_waits_for_zero config canceled_wait
                  (Ledger.mkState [blk 19; blk 20; blk 21] None [] [] [] None)
                  (Some Ledger.errCanceled) eq_refl)).
Defined.

(** * More on [Generate] *)

Section LoopFacts.

Context {W : Type} `{Externals W}.

Lemma mainLoop_returned ticks (evs : list selected) :
  forall g w, outcome (mainLoop ticks g w evs) = Returned <-> In CtxDone evs.
Proof.
  induction evs as [|ev evs IH]; intros g w; simpl.
  - split; [discriminate|tauto].
  - destruct ev; simpl.
    + split; auto.
    + assert (Hin : Tick = CtxDone \/ In CtxDone evs <-> In CtxDone evs).
      { split; [intros [Hx|Hx]; [discriminate|exact Hx]|auto]. }
      rewrite Hin. destruct ticks; [|apply IH].
      destruct (MakeBlock g w) as [[g' w'] [b err]]. simpl. apply IH.
Qed.

Lemma mainLoop_blocked ticks (evs : list selected) g w :
  outcome (mainLoop ticks g w evs) = Blocked <-> ~ In CtxDone evs.
Proof.
  pose proof (mainLoop_returned ticks evs g w) as Hr.
  pose proof (mainLoop_never_exits ticks evs g w) as Hx.
  destruct (outcome (mainLoop ticks g w evs)).
  - contradiction.
  - split; [discriminate|]. intros Hn. exfalso. apply Hn, Hr. reflexivity.
  - split; [|reflexivity]. intros _ Hin. apply Hr in Hin. discriminate.
Qed.

Lemma mainLoop_productions p (evs : list selected) :
  forall g w,
    productions (trace (mainLoop (Some p) g w evs)) = ticks_before_done evs.
Proof.
  induction evs as [|ev evs IH]; intros g w; simpl; [reflexivity|].
  destruct ev; simpl; [reflexivity|].
  destruct (MakeBlock g w) as [[g' w'] [b err]]. simpl.
  unfold productions in *.
  destruct err; simpl; now rewrite IH.
Qed.

Lemma mainLoop_without_ticker (evs : list selected) :
  forall g w,
    mainLoop None g w evs =
    mkRun (Some g) w
      (if existsb (fun ev => match ev with CtxDone => true | Tick => false end)
            evs
       then [LogMessagef deposed] else [])
      (if existsb (fun ev => match ev with CtxDone => true | Tick => false end)
            evs
       then Returned else Blocked).
Proof.
  induction evs as [|ev evs IH]; intros g w; simpl; [reflexivity|].
  destruct ev; simpl; [reflexivity|apply IH].
Qed.

Lemma mainLoop_no_recover ticks (evs : list selected) :
  forall g w, filter is_recover (trace (mainLoop ticks g w evs)) = [].
Proof.
  induction evs as [|ev evs IH]; intros g w; simpl; [reflexivity|].
  destruct ev; simpl; [reflexivity|].
  destruct ticks; [|apply IH].
  destruct (MakeBlock g w) as [[g' w'] [b err]]. simpl.
  destruct err; simpl; apply IH.
Qed.

(** The two ways out of the startup sequence: a fatal log, or the loop. *)
Lemma Generate_cases config (w : W) :
  (exists e acts hf wf,
      startup_failure config w e /\ startup_calls acts /\
      forall period evs,
        Generate config period evs w =
        mkRun hf wf (acts ++ [LogFatal e]) Exited)
  \/
  (exists acts g w',
      startup_calls acts /\
      forall period evs,
        Generate config period evs w =
        prepend acts (mainLoop (time_Tick period) g w' evs)).
Proof.
  unfold Generate, startup_calls.
  destruct (Recover (FC config) w) as [w1 [[rb rs] err]] eqn:HR.
  destruct err as [e|].
  { left. exists e, [CallRecover], None, w1. repeat split; auto.
    eapply recovery_failed. eassumption. }
  destruct (getPendingBlock (New rb rs config) w1) as [w2 [pb err]] eqn:HP.
  destruct err as [e|].
  { left. exists e, [CallRecover; CallGetPendingBlock],
      (Some (New rb rs config)), w2.
    repeat split; auto. eapply pending_query_failed; eassumption. }
  destruct pb as [pb|].
  - destruct (follows_head (New rb rs config) pb) eqn:HF.
    + destruct (commitBlock (New rb rs config) pb w2)
        as [[g' w3] [cb err]] eqn:HC.
      destruct err as [e|].
      * left. exists e, [CallRecover; CallGetPendingBlock; CallCommitBlock pb],
          (Some g'), w3.
        repeat split; eauto.
        eapply reconcile_commit_failed; eassumption.
      * right. exists [CallRecover; CallGetPendingBlock; CallCommitBlock pb],
          g', w3.
        split; eauto.
    + right. exists [CallRecover; CallGetPendingBlock], (New rb rs config), w2.
      split; auto.
  - right. exists [CallRecover; CallGetPendingBlock], (New rb rs config), w2.
    split; auto.
Qed.

End LoopFacts.

Lemma split_after_production (acts : list action) :
  forall lt a b,
    acts ++ lt = a ++ CallMakeBlock :: b ->
    filter is_production acts = [] ->
    exists a', lt = a' ++ CallMakeBlock :: b.
Proof.
  induction acts as [|x acts IH]; intros lt a b Heq Hnp; simpl in *.
  - exists a. exact Heq.
  - destruct (is_production x) eqn:Hx; [discriminate|].
    destruct a as [|y a]; simpl in Heq.
    + injection Heq as Hy _. subst x. discriminate.
    + injection Heq as _ Heq. now apply (IH lt a b).
Qed.

Lemma startup_calls_no_production (acts : list action) :
  startup_calls acts -> filter is_production acts = [].
Proof.
  intros [Ha|[Ha|[pb Ha]]]; subst acts; reflexivity.
Qed.

Lemma startup_calls_commit_once (acts : list action) :
  startup_calls acts -> (length (filter is_commit acts) <= 1)%nat.
Proof.
  intros [Ha|[Ha|[pb Ha]]]; subst acts; simpl; lia.
Qed.

Lemma startup_calls_recover_first (acts : list action) :
  startup_calls acts ->
  exists rest, acts = CallRecover :: rest /\ filter is_recover rest = [].
Proof.
  intros [Ha|[Ha|[pb Ha]]]; subst acts; eexists; split; reflexivity.
Qed.

Section GenerateMore.

Context {W : Type} `{Externals W}.

(** X1.  [Generate] ends the process only through a failure of the startup
    sequence: if a run is [Exited], then recovery, the pending-block query
    or the reconciliation commit returned an error, and the fatal log of
    that error is the last action of the run. *)
Theorem Generate_exits_only_on_startup_failure config period evs (w : W) :
  outcome (Generate config period evs w) = Exited ->
  exists e tr,
    startup_failure config w e /\
    trace (Generate config period evs w) = tr ++ [LogFatal e].
Proof.
  intros Hx.
  destruct (Generate_cases config w)
    as [[e [acts [hf [wf [Hf [_ Hg]]]]]]|[acts [g [w' [_ Hg]]]]].
  - exists e, acts. rewrite Hg. auto.
  - rewrite Hg in Hx. simpl in Hx.
    exfalso. revert Hx. apply mainLoop_never_exits.
Qed.

(** X2.  [Generate] returns exactly when the startup sequence went through
    and the [select] takes the cancellation case. *)
Theorem Generate_returns_iff_cancelled config period evs (w : W) :
  outcome (Generate config period evs w) = Returned <->
  In CtxDone evs /\ outcome (Generate config period [] w) = Blocked.
Proof.
  destruct (Generate_cases config w)
    as [[e [acts [hf [wf [Hf [_ Hg]]]]]]|[acts [g [w' [_ Hg]]]]].
  - rewrite !Hg. simpl. split; [discriminate|]. intros [_ Hx]. discriminate.
  - rewrite !Hg. simpl. rewrite mainLoop_returned. tauto.
Qed.

(** X3.  With a positive period and a startup sequence that went through,
    the number of calls of [MakeBlock] in a run is the number of ticks the
    [select] took before it took the cancellation: one per tick, whether
    the calls fail or not, and none after the cancellation. *)
Theorem Generate_one_production_per_tick config period evs (w : W) :
  0 < period ->
  outcome (Generate config period [] w) = Blocked ->
  productions (trace (Generate config period evs w)) = ticks_before_done evs.
Proof.
  intros Hp Hb.
  assert (Ht : time_Tick period = Some period).
  { unfold time_Tick. destruct (Z.leb_spec period 0); [lia|reflexivity]. }
  destruct (Generate_cases config w)
    as [[e [acts [hf [wf [Hf [_ Hg]]]]]]|[acts [g [w' [Hc Hg]]]]].
  - rewrite Hg in Hb. discriminate.
  - rewrite Hg. simpl. unfold productions. rewrite filter_app, length_app.
    rewrite (startup_calls_no_production _ Hc). simpl.
    rewrite Ht. apply mainLoop_productions.
Qed.

(** X4.  With a period that is not positive [time.Tick] gives a nil
    channel and [MakeBlock] is never called.  After a startup sequence
    that went through, the ticks have no effect at all: as long as the
    [select] does not take the cancellation the run stays blocked as the
    startup sequence left it, and when it does, [Generate] logs and
    returns with that same head and outside world. *)
Theorem Generate_without_ticker_makes_no_block config period evs (w : W) :
  period <= 0 ->
  productions (trace (Generate config period evs w)) = 0%nat /\
  (outcome (Generate config period [] w) = Blocked ->
   Generate config period evs w =
   if cancelled evs then
     mkRun (head (Generate config period [] w))
       (world (Generate config period [] w))
       (trace (Generate config period [] w) ++ [LogMessagef deposed])
       Returned
   else Generate config period [] w).
Proof.
  intros Hp.
  assert (Ht : time_Tick period = None).
  { unfold time_Tick. destruct (Z.leb_spec period 0); [reflexivity|lia]. }
  destruct (Generate_cases config w)
    as [[e [acts [hf [wf [Hf [Hc Hg]]]]]]|[acts [g [w' [Hc Hg]]]]].
  - rewrite !Hg. simpl. split; [|discriminate].
    unfold productions. rewrite filter_app, length_app.
    now rewrite (startup_calls_no_production _ Hc).
  - rewrite !Hg, Ht, !mainLoop_without_ticker. simpl.
    fold (cancelled evs). split.
    + unfold productions. rewrite filter_app, length_app.
      rewrite (startup_calls_no_production _ Hc).
      now destruct (cancelled evs).
    + intros _. unfold prepend. simpl.
      destruct (cancelled evs); simpl; rewrite !app_nil_r; reflexivity.
Qed.

(** X5.  In every run [commitBlock] is called by [Generate] at most once,
    and never after a call of [MakeBlock]: the reconciliation commit comes
    before the first production cycle. *)
Theorem Generate_commits_once_before_producing config period evs (w : W) :
  (length (filter is_commit (trace (Generate config period evs w))) <= 1)%nat
  /\
  forall a b,
    trace (Generate config period evs w) = a ++ CallMakeBlock :: b ->
    filter is_commit b = [].
Proof.
  destruct (Generate_cases config w)
    as [[e [acts [hf [wf [Hf [Hc Hg]]]]]]|[acts [g [w' [Hc Hg]]]]];
    rewrite Hg; simpl.
  - split.
    + rewrite filter_app, length_app. simpl.
      pose proof (startup_calls_commit_once _ Hc). lia.
    + intros a b Heq.
      destruct (split_after_production _ _ _ _ Heq
                  (startup_calls_no_production _ Hc)) as [a' Ha'].
      destruct a' as [|x [|y a']]; discriminate.
  - pose proof (mainLoop_no_commit (time_Tick period) evs g w') as Hnc.
    split.
    + rewrite filter_app, length_app, Hnc. simpl.
      pose proof (startup_calls_commit_once _ Hc). lia.
    + intros a b Heq.
      destruct (split_after_production _ _ _ _ Heq
                  (startup_calls_no_production _ Hc)) as [a' Ha'].
      rewrite Ha', filter_app in Hnc. simpl in Hnc.
      now apply app_eq_nil in Hnc.
Qed.

(** X6.  [Recover] is called exactly once in every run, and it is the
    first thing [Generate] does. *)
Theorem Generate_recovers_once_first config period evs (w : W) :
  exists tr,
    trace (Generate config period evs w) = CallRecover :: tr /\
    filter is_recover tr = [].
Proof.
  destruct (Generate_cases config w)
    as [[e [acts [hf [wf [Hf [Hc Hg]]]]]]|[acts [g [w' [Hc Hg]]]]];
    rewrite Hg; simpl;
    destruct (startup_calls_recover_first _ Hc) as [rest [Ha Hr]]; subst acts.
  - exists (rest ++ [LogFatal e]). split; [reflexivity|].
    rewrite filter_app, Hr. reflexivity.
  - eexists. split; [reflexivity|].
    rewrite filter_app, Hr. simpl. apply mainLoop_no_recover.
Qed.

(** X8.  Take a run of [Generate] that is blocked in the [select] with
    head [g0], the period being positive.  If the [select] takes a tick
    and [MakeBlock] returns no error, nothing is logged and the run is back
    at the [select] with the head and the outside world [MakeBlock]
    produced. *)
Theorem successful_tick_logs_nothing
    config period (pre rest : list selected) (w w' : W) g0 g' b :
  0 < period ->
  outcome (Generate config period pre w) = Blocked ->
  head (Generate config period pre w) = Some g0 ->
  MakeBlock g0 (world (Generate config period pre w)) = (g', w', (b, None)) ->
  Generate config period (pre ++ Tick :: rest) w =
    prepend (trace (Generate config period pre w) ++ [CallMakeBlock])
      (mainLoop (time_Tick period) g' w' rest)
  /\ Generate config period (pre ++ [Tick]) w =
       mkRun (Some g') w'
         (trace (Generate config period pre w) ++ [CallMakeBlock]) Blocked.
Proof.
  intros Hp Hb Hh HM.
  destruct (Generate_resume config period pre w Hb) as [g1 [Hh1 Hr]].
  rewrite Hh in Hh1. inversion Hh1; subst g1. clear Hh1.
  assert (Ht : time_Tick period = Some period).
  { unfold time_Tick. destruct (Z.leb_spec period 0); [lia|reflexivity]. }
  rewrite !Hr. simpl. rewrite Ht. rewrite HM.
  rewrite prepend_prepend. split; reflexivity.
Qed.

End GenerateMore.

Lemma mainLoop_no_fatal {W : Type} `{Externals W} ticks (evs : list selected) :
  forall g w, filter is_log_fatal (trace (mainLoop ticks g w evs)) = [].
Proof.
  induction evs as [|ev evs IH]; intros g w; simpl; [reflexivity|].
  destruct ev; simpl; [reflexivity|].
  destruct ticks; [|apply IH].
  destruct (MakeBlock g w) as [[g' w'] [b err]]. simpl.
  destruct err; simpl; apply IH.
Qed.

Lemma not_fatal_in (tr : list action) (e : error) :
  filter is_log_fatal tr = [] -> ~ In (LogFatal e) tr.
Proof.
  intros Hf Hin.
  assert (Hin' : In (LogFatal e) (filter is_log_fatal tr)).
  { apply filter_In. split; [exact Hin|reflexivity]. }
  rewrite Hf in Hin'. exact Hin'.
Qed.

Lemma startup_calls_no_fatal (acts : list action) :
  startup_calls acts -> filter is_log_fatal acts = [].
Proof.
  intros [Ha|[Ha|[pb Ha]]]; subst acts; reflexivity.
Qed.

(** X9.  Whatever is passed to [log.Fatal] in a run is the error of a
    failed step of the startup sequence (recovery, the pending-block query
    or the reconciliation commit); that log is the last action of the run,
    the only fatal log in it, and the run has exited.  The error of a
    production cycle is therefore never passed to [log.Fatal]. *)
Theorem Generate_fatal_log_is_a_startup_error
    {W : Type} `{Externals W} config period evs (w : W) e :
  In (LogFatal e) (trace (Generate config period evs w)) ->
  startup_failure config w e /\
  outcome (Generate config period evs w) = Exited /\
  exists tr,
    trace (Generate config period evs w) = tr ++ [LogFatal e] /\
    filter is_log_fatal tr = [].
Proof.
  intros Hin.
  destruct (Generate_cases config w)
    as [[e0 [acts [hf [wf [Hf [Hc Hg]]]]]]|[acts [g [w' [Hc Hg]]]]];
    rewrite Hg in *; simpl in *;
    pose proof (startup_calls_no_fatal _ Hc) as Hnf.
  - apply in_app_or in Hin. destruct Hin as [Hin|[Hin|[]]].
    + exfalso. revert Hin. apply not_fatal_in, Hnf.
    + injection Hin as <-. repeat split; [exact Hf|].
      exists acts. split; [reflexivity|exact Hnf].
  - exfalso. apply in_app_or in Hin. destruct Hin as [Hin|Hin].
    + revert Hin. apply not_fatal_in, Hnf.
    + revert Hin. apply not_fatal_in, mainLoop_no_fatal.
Qed.

(** * More on [GetBlocks] *)

Lemma fold_append_some (rows : list Block) (l : list Block) :
  fold_left append rows (Some l) = Some (l ++ rows).
Proof.
  revert l. induction rows as [|b rows IH]; intros l; simpl.
  - now rewrite app_nil_r.
  - unfold append at 2. simpl. rewrite IH. now rewrite <- app_assoc.
Qed.

Section GetBlocksMore.

Context {W : Type} `{Externals W}.

Lemma GetBlocks_success_inv (g : Config) afterHeight (w w' : W) bs :
  GetBlocks g afterHeight w = (w', (bs, None)) ->
  WaitForBlock (FC g) (add64 afterHeight 1) w = (w', None) /\
  exists rows,
    ForQueryRows q afterHeight w' = (rows, None) /\
    bs = fold_left append rows None.
Proof.
  unfold GetBlocks. intros HG.
  destruct (WaitForBlock (FC g) (add64 afterHeight 1) w) as [w1 werr].
  destruct werr as [e|]; [discriminate|].
  destruct (ForQueryRows q afterHeight w1) as [rows qerr] eqn:HQ.
  destruct qerr as [e|]; [discriminate|].
  inversion HG; subst. split; [reflexivity|].
  exists rows. split; [exact HQ|reflexivity].
Qed.

(** X10.  A successful [GetBlocks] returns the rows of the query in the
    order the callback received them, and the slice it returns is nil, not
    an empty slice, exactly when the query had no row. *)
Theorem GetBlocks_returns_nil_slice_iff_no_rows
    (g : Config) afterHeight (w w' : W) bs :
  GetBlocks g afterHeight w = (w', (bs, None)) ->
  exists rows,
    ForQueryRows q afterHeight w' = (rows, None) /\
    elems bs = rows /\
    (bs = None <-> rows = []).
Proof.
  intros HG.
  destruct (GetBlocks_success_inv _ _ _ _ _ HG) as [_ [rows [HQ Hbs]]].
  exists rows. split; [exact HQ|]. subst bs. split.
  - now rewrite elems_fold_append.
  - destruct rows as [|b rows]; simpl.
    + tauto.
    + unfold append at 2. simpl. rewrite fold_append_some.
      split; discriminate.
Qed.

Context `{!ExternalsLaws W}.

(** X11.  Under the contracts of [WaitForBlock] and of the query: for
    [afterHeight] below [2^64 - 1], a successful [GetBlocks] returns at
    least one block, and the first block of the slice has height
    [afterHeight + 1]. *)
Theorem GetBlocks_first_block_is_next_height
    (g : Config) afterHeight (w w' : W) bs :
  0 <= afterHeight < max_uint64 ->
  GetBlocks g afterHeight w = (w', (bs, None)) ->
  exists b rest, elems bs = b :: rest /\ Height b = afterHeight + 1.
Proof.
  intros Hr HG.
  destruct (GetBlocks_success_inv _ _ _ _ _ HG) as [HW [rows [HQ Hbs]]].
  subst bs. rewrite elems_fold_append. simpl.
  destruct (WaitForBlock_found _ _ _ _ HW) as [b0 [Hin0 Hh0]].
  rewrite (add64_no_wrap _ Hr) in Hh0.
  pose proof (ForQueryRows_rows _ _ _ HQ) as Hperm.
  pose proof (ForQueryRows_order _ _ _ HQ) as Hsorted.
  assert (Hin : In b0 rows).
  { apply (Permutation_in (l := filter (higher_than afterHeight)
                                   (blocks_table w'))).
    - now apply Permutation_sym.
    - apply filter_In. split; [exact Hin0|].
      unfold higher_than. apply Z.ltb_lt. lia. }
  destruct rows as [|x rows]; [contradiction|].
  exists x, rows. split; [reflexivity|].
  assert (Hx : In x (filter (higher_than afterHeight) (blocks_table w'))).
  { apply (Permutation_in (l := x :: rows)); [exact Hperm|now left]. }
  apply filter_In in Hx. destruct Hx as [_ Hx].
  unfold higher_than in Hx. apply Z.ltb_lt in Hx.
  inversion Hsorted as [|y l Hl Hall]; subst.
  destruct Hin as [Heq|Hin].
  - now subst x.
  - rewrite Forall_forall in Hall. specialize (Hall b0 Hin).
    unfold by_height in Hall. lia.
Qed.

End GetBlocksMore.

Section StartupAndPaging.

Context {W : Type} `{Externals W}.

(** X13.  When recovery returns a head block and the pending block has the
    height that follows it (modulo 2^64), the outcome of [commitBlock]
    decides the run: an error is fatal, and otherwise the tick loop starts
    from the head and the outside world the commit produced. *)
Theorem reconciliation_commit_decides_the_run
    config period evs (w w1 w2 w3 : W) hb rs pb g' cb cerr :
  Recover (FC config) w = (w1, (Some hb, rs, None)) ->
  getPendingBlock (New (Some hb) rs config) w1 = (w2, (Some pb, None)) ->
  Height pb = add64 (Height hb) 1 ->
  commitBlock (New (Some hb) rs config) pb w2 = (g', w3, (cb, cerr)) ->
  Generate config period evs w =
  match cerr with
  | Some e =>
      mkRun (Some g') w3
        [CallRecover; CallGetPendingBlock; CallCommitBlock pb; LogFatal e]
        Exited
  | None =>
      prepend [CallRecover; CallGetPendingBlock; CallCommitBlock pb]
        (mainLoop (time_Tick period) g' w3 evs)
  end.
Proof.
  intros HR HP Hh HC. unfold Generate.
  rewrite HR. simpl. rewrite HP. simpl.
  unfold follows_head. simpl.
  rewrite (proj2 (Z.eqb_eq _ _) Hh), HC. reflexivity.
Qed.

(** X14.  When the pending-block query returns no block and no error,
    [commitBlock] is not called, whether recovery returned a head block or
    nil: the tick loop starts from the recovered head. *)
Theorem no_pending_block_no_commit
    config period evs (w w1 w2 : W) rb rs :
  Recover (FC config) w = (w1, (rb, rs, None)) ->
  getPendingBlock (New rb rs config) w1 = (w2, (None, None)) ->
  Generate config period evs w =
    prepend [CallRecover; CallGetPendingBlock]
      (mainLoop (time_Tick period) (New rb rs config) w2 evs)
  /\ filter is_commit (trace (Generate config period evs w)) = [].
Proof.
  intros HR HP. unfold Generate.
  rewrite HR. simpl. rewrite HP. simpl.
  split; [reflexivity|]. apply mainLoop_no_commit.
Qed.

Context `{!ExternalsLaws W}.

(** X15.  Under the contract of the query: a reader that calls
    [GetBlocks] again with an [afterHeight] that is at least the height of
    every block it received is never handed one of those blocks a second
    time. *)
Theorem GetBlocks_next_page_is_disjoint
    (g : Config) a a' (w w1 w2 : W) bs1 bs2 :
  GetBlocks g a w = (w1, (bs1, None)) ->
  GetBlocks g a' w1 = (w2, (bs2, None)) ->
  (forall b, In b (elems bs1) -> Height b <= a') ->
  forall b, In b (elems bs1) -> ~ In b (elems bs2).
Proof.
  intros H1 H2 Hle b Hb1 Hb2.
  destruct (GetBlocks_success_inv _ _ _ _ _ H2) as [_ [rows [HQ Hbs]]].
  subst bs2. rewrite elems_fold_append in Hb2. simpl in Hb2.
  pose proof (ForQueryRows_rows _ _ _ HQ) as Hperm.
  apply (Permutation_in _ Hperm) in Hb2.
  apply filter_In in Hb2. destruct Hb2 as [_ Hhigh].
  unfold higher_than in Hhigh. apply Z.ltb_lt in Hhigh.
  specialize (Hle b Hb1). lia.
Qed.

End StartupAndPaging.

(** * More scenarios *)

Lemma Generate_exits_only_on_startup_failure_witness :
  exists e tr,
    startup_failure config recover_fails e /\
    trace (Generate config 1000 [Tick] recover_fails) = tr ++ [LogFatal e].
Proof.
  exact (Generate_exits_only_on_startup_failure config 1000 [Tick]
           recover_fails eq_refl).
Defined.

(** Two ticks, the cancellation, and a tick that comes too late. *)
Lemma Generate_one_production_per_tick_witness :
  productions
    (trace (Generate config 1000 [Tick; Tick; CtxDone; Tick]
              crashed_before_commit)) = 2%nat.
Proof.
  exact (Generate_one_production_per_tick config 1000
           [Tick; Tick; CtxDone; Tick] crashed_before_commit
           eq_refl eq_refl).
Defined.

(** No ticker: the ticks pass and the run stays blocked; with the
    cancellation it returns, and no block was made. *)
Lemma Generate_without_ticker_makes_no_block_witness :
  Generate config 0 [Tick; Tick] crashed_before_commit =
    Generate config 0 [] crashed_before_commit /\
  Generate config 0 [Tick; CtxDone; Tick] crashed_before_commit =
    mkRun (head (Generate config 0 [] crashed_before_commit))
      (world (Generate config 0 [] crashed_before_commit))
      (trace (Generate config 0 [] crashed_before_commit)
         ++ [LogMessagef deposed])
      Returned.
Proof.
  split.
  - refine (proj2 (Generate_without_ticker_makes_no_block config 0
                     [Tick; Tick] crashed_before_commit _) eq_refl).
    lia.
  - refine (proj2 (Generate_without_ticker_makes_no_block config 0
                     [Tick; CtxDone; Tick] crashed_before_commit _) eq_refl).
    lia.
Defined.

(** After the reconciliation commit of block 14 a tick builds and commits
    block 15 and logs nothing. *)
Lemma successful_tick_logs_nothing_witness :
  Generate config 1000 ([] ++ [Tick]) crashed_before_commit =
  mkRun
    (Some (mkGenerator config (Some (mkBlock 15 ["pay"%string]))
             (Some ["tx"; "tx"; "tx"; "pay"]%string)))
    (Ledger.mkState [blk 12; blk 13; blk 14; mkBlock 15 ["pay"%string]]
       None [] [] [] None)
    ([CallRecover; CallGetPendingBlock; CallCommitBlock (blk 14)]
       ++ [CallMakeBlock])
    Blocked.
Proof.
  refine (proj2 (successful_tick_logs_nothing config 1000 [] []
            crashed_before_commit
            (Ledger.mkState [blk 12; blk 13; blk 14; mkBlock 15 ["pay"%string]]
               None [] [] [] None)
            (mkGenerator config (Some (blk 14))
               (Some ["tx"; "tx"; "tx"]%string))
            (mkGenerator config (Some (mkBlock 15 ["pay"%string]))
               (Some ["tx"; "tx"; "tx"; "pay"]%string))
            (Some (mkBlock 15 ["pay"%string]))
            _ eq_refl eq_refl eq_refl)).
  reflexivity.
Defined.

Lemma GetBlocks_returns_nil_slice_iff_no_rows_witness :
  exists rows,
    ForQueryRows q 20
      (Ledger.mkState [blk 19; blk 20; blk 21] None [] [blk 22] [] None) =
      (rows, None) /\
    elems (Some [blk 21]) = rows /\
    (Some [blk 21] = None <-> rows = []).
Proof.
  exact (GetBlocks_returns_nil_slice_iff_no_rows config 20 follower_at_20
           (Ledger.mkState [blk 19; blk 20; blk 21] None [] [blk 22] [] None)
           (Some [blk 21]) eq_refl).
Defined.

Lemma GetBlocks_first_block_is_next_height_witness :
  exists b rest, elems (Some [blk 21]) = b :: rest /\ Height b = 20 + 1.
Proof.
  refine (GetBlocks_first_block_is_next_height config 20 follower_at_20
            (Ledger.mkState [blk 19; blk 20; blk 21] None [] [blk 22] [] None)
            (Some [blk 21]) _ eq_refl).
  unfold max_uint64. lia.
Defined.

Lemma reconciliation_commit_decides_the_run_witness :
  Generate config 1000 [] crashed_before_commit =
  prepend [CallRecover; CallGetPendingBlock; CallCommitBlock (blk 14)]
    (mainLoop (time_Tick 1000)
       (mkGenerator config (Some (blk 14)) (Some ["tx"; "tx"; "tx"]%string))
       (Ledger.mkState [blk 12; blk 13; blk 14] None ["pay"%string] [] []
          None)
       []).
Proof.
  exact (reconciliation_commit_decides_the_run config 1000 []
           crashed_before_commit crashed_before_commit crashed_before_commit
           (Ledger.mkState [blk 12; blk 13; blk 14] None ["pay"%string] [] []
              None)
           (blk 13) (Some ["tx"; "tx"]%string) (blk 14)
           (mkGenerator config (Some (blk 14))
              (Some ["tx"; "tx"; "tx"]%string))
           (Some (blk 14)) None eq_refl eq_refl eq_refl eq_refl).
Defined.

Lemma no_pending_block_no_commit_witness :
  filter is_commit (trace (Generate config 1000 [Tick] signers_away)) = [].
Proof.
  exact (proj2 (no_pending_block_no_commit config 1000 [Tick]
                  signers_away signers_away signers_away
                  (Some (blk 13)) (Some ["tx"%string]) eq_refl eq_refl)).
Defined.

(** The follower asks for the blocks after 20, receives block 21, and asks
    for the blocks after 21. *)
Lemma GetBlocks_next_page_is_disjoint_witness :
  ~ In (blk 21) (elems (Some [blk 22])).
Proof.
  refine (GetBlocks_next_page_is_disjoint config 20 21 follower_at_20
            (Ledger.mkState [blk 19; blk 20; blk 21] None [] [blk 22] [] None)
            (Ledger.mkState [blk 19; blk 20; blk 21; blk 22] None [] [] []
               None)
            (Some [blk 21]) (Some [blk 22]) eq_refl eq_refl _ (blk 21) _).
  - intros b [Hb|[]]. subst b. simpl. lia.
  - left. reflexivity.
Defined.

(** The commit of the leftover block fails at startup: the error passed to
    [log.Fatal] is that of the commit. *)
Lemma Generate_fatal_log_is_a_startup_error_witness :
  startup_failure config reconcile_commit_fails Ledger.errStorage /\
  outcome (Generate config 1000 [Tick] reconcile_commit_fails) = Exited.
Proof.
  refine ((fun H => conj (proj1 H) (proj1 (proj2 H)))
            (Generate_fatal_log_is_a_startup_error config 1000 [Tick]
               reconcile_commit_fails Ledger.errStorage _)).
  vm_compute. auto.
Defined.
